(** * Hypodermic: the resolution engine of [ComponentContext.h]

    A shallow embedding of [Hypodermic::ComponentContext] and proofs about
    [resolve<T>()] and [resolveAll<T>()].

    The class is written against interfaces whose implementations live in
    other headers ([IRegistrationScope], [ILifetimeScope],
    [IRuntimeRegistrationBuilder], the [Traits]).  The embedding keeps that
    shape: the traits and the lifetime scopes are type classes, the engine is
    written once over them, and every theorem holds for all their instances.
    Each member function is a computation over a [Store] (the members of the
    [ComponentContext] and what its collaborators keep) that can throw and
    that records, in program order, the calls it makes on its collaborators. *)

From stdpp Require Import gmap list strings.

(** ** What the program that uses the container fixes at compile time *)

(** [T] in [resolve<T>()] is a C++ type.  The engine only ever looks at three
    things derived from it: its [TypeInfo] ([Utils::getMetaTypeInfo<T>()]),
    its registry key ([createKeyForType<T>()]) and the trait
    [Traits::HasAutowireableConstructor<T>].  A type is represented by its
    [TypeInfo]. *)
Class Application := {
  TypeInfo : Type;
  TypeAliasKey : Type;
  TypeAliasKey_eq_dec :: EqDecision TypeAliasKey;
  TypeAliasKey_countable :: Countable TypeAliasKey;
  createKeyForType : TypeInfo → TypeAliasKey;
  HasAutowireableConstructor : TypeInfo → bool;
  (** what a non-null [std::shared_ptr<void>] points to *)
  Object : Type;
  (** what a [throw] carries *)
  exception : Type;
  (** the [ILifetimeScope] objects, and everything they have cached *)
  LifetimeScope : Type;
  ScopeState : Type;
}.

Section Engine.
Context `{Application}.

(** [std::shared_ptr<T>]: null or an object. *)
Definition shared_ptr : Type := option Object.
Definition nullptr : shared_ptr := None.

(** The factory handed to the registration builder.  [tryToRegisterType]
    passes the closure of line 150, which wraps
    [Traits::ConstructorDescriptor<T>::describe()]; registrations made
    through the registration DSL carry factories of their own, told apart
    by a tag. *)
Inductive InstanceFactory :=
| DescribedConstructor (T : TypeInfo)
| RegisteredFactory (tag : nat).

(** Modelled from the spec: [IRegistration] is declared in a header that is
    not part of this file.  Section 6: the builder, "given a type identity
    and a type-erased factory function, produces a Registration object ready
    for insertion into the Registry". *)
Record Registration := {
  instanceType : TypeInfo;
  instanceFactory : InstanceFactory;
}.

(** Modelled from the spec: [IRuntimeRegistrationBuilder::build] (section 6,
    as above): the registration of the given type with the given factory. *)
Definition build (T : TypeInfo) (factory : InstanceFactory) : Registration :=
  {| instanceType := T; instanceFactory := factory |}.

(** Modelled from the spec: [RegistrationContext] (declared elsewhere) "pairs
    a Registration with the LifetimeScope instance responsible for its
    caching policy"; the engine reads it back through [scope()] and
    [registration()]. *)
Record RegistrationContext := {
  scope : LifetimeScope;
  registration : Registration;
}.

(** Modelled from the spec: the registry behind [IRegistrationScope], "the
    mapping from TypeKey to an ordered sequence of RegistrationContext
    (insertion order preserved)". *)
Local Abbreviation RegistrationScope := (gmap TypeAliasKey (list RegistrationContext)).

(** Modelled from the spec: [ActivationStack.h] is not part of this file; "an
    ordered sequence of (TypeKey, Registration-identity) pairs". *)
Definition ActivationStack : Type := list (TypeAliasKey * Registration).

(** A [ResolutionContext] is built from three references (line 89): it owns
    nothing, it names the engine and two of its members. *)
Inductive Reference := this | member_activationStack | member_activatedRegistrations.

Record ResolutionContext := {
  componentContext : Reference;
  activationStack : Reference;
  activatedRegistrations : Reference;
}.

(** The members of the [ComponentContext] (lines 163-167), with the state of
    the lifetime scopes its registration contexts point to.  [m_mutex] is the
    number of times the running thread holds the recursive mutex.
    [m_runtimeRegistrationBuilder] has no state: it is [build]. *)
Record Store := {
  m_registrationScope : RegistrationScope;
  m_activationStack : ActivationStack;
  m_activatedRegistrations : ActivationStack;
  m_mutex : nat;
  lifetimeScopes : ScopeState;
}.

(** ** Computations *)

Inductive Outcome (A : Type) :=
| Returns (a : A)
| Throws (e : exception).
Arguments Returns {A} a.
Arguments Throws {A} e.

(** The calls a member function makes on its collaborators, as they appear
    in its body.  What a collaborator does while it is running (a factory
    that resolves its own dependencies re-enters the engine) is part of that
    collaborator's effect on the [Store], not of this list. *)
Inductive Call :=
| call_tryGetRegistrations (typeAliasKey : TypeAliasKey)
| call_addRegistration (r : Registration)
| construct_ResolutionContext (c : ResolutionContext)
| destroy_ResolutionContext
| call_lock
| call_unlock
| call_getOrCreateComponent (sc : LifetimeScope) (typeAliasKey : TypeAliasKey)
    (r : Registration) (c : ResolutionContext).

Record Run (A : Type) := {
  outcome : Outcome A;
  store : Store;
  calls : list Call;
}.
Arguments outcome {A} r.
Arguments store {A} r.
Arguments calls {A} r.

Definition M (A : Type) : Type := Store → Run A.

Definition ret {A} (a : A) : M A :=
  λ s, {| outcome := Returns a; store := s; calls := [] |}.

(** Sequencing: an exception skips the rest. *)
Definition bind {A B} (m : M A) (f : A → M B) : M B :=
  λ s,
    let r := m s in
    match outcome r with
    | Returns a =>
        let r' := f a (store r) in
        {| outcome := outcome r'; store := store r'; calls := calls r ++ calls r' |}
    | Throws e => {| outcome := Throws e; store := store r; calls := calls r |}
    end.

End Engine.

Abbreviation RegistrationScope := (gmap TypeAliasKey (list RegistrationContext)).

Arguments Returns {_ A} a.
Arguments Throws {_ A} e.
Arguments outcome {_ A} r.
Arguments store {_ A} r.
Arguments calls {_ A} r.
Arguments Build_Run {_ A} outcome store calls.

Notation "x <- c1 ;; c2" := (bind c1 (λ x, c2))
  (at level 100, c1 at next level, right associativity).

(** ** The collaborators behind the interfaces *)

(** [ILifetimeScope::getOrCreateComponent] is a strategy the engine only
    calls: it may reuse an instance or run the registration's factory, which
    may resolve its dependencies through the engine again, fill the
    activation stacks, register further types, or throw.  All of that is a
    function of the [Store].  [lifetimeScopeFor] is the scope the registry
    pairs with a registration when it wraps it in a [RegistrationContext]. *)
Class Collaborators `{Application} := {
  lifetimeScopeFor : Registration → LifetimeScope;
  getOrCreateComponent :
    LifetimeScope → TypeAliasKey → Registration → ResolutionContext →
    Store → Outcome shared_ptr * Store;
}.

Section Members.
Context `{Collaborators}.

(** *** [IRegistrationScope] *)

(** Modelled from the spec: [IRegistrationScope::tryGetRegistrations] is
    declared in a header that is not part of this file.  Section 4.1:
    "lookup(key) returns the full, ordered list or an empty result if nothing
    is registered; this is a pure read with no side effects".  The C++
    signature returns whether the key was found and fills the vector passed
    by reference. *)
Definition RegistrationScope_tryGetRegistrations (registry : RegistrationScope)
    (typeAliasKey : TypeAliasKey) (registrationContexts : list RegistrationContext)
    : bool * list RegistrationContext :=
  match registry !! typeAliasKey with
  | Some found => (true, found)
  | None => (false, registrationContexts)
  end.

(** Modelled from the spec: [IRegistrationScope::addRegistration] is declared
    in a header that is not part of this file.  Section 4.1: "appends to the
    ordered sequence for key, never removing prior entries"; the key is the
    one of the type the registration was built for. *)
Definition RegistrationScope_addRegistration (registry : RegistrationScope)
    (r : Registration) : RegistrationScope :=
  let typeAliasKey := createKeyForType (instanceType r) in
  <[typeAliasKey :=
      default [] (registry !! typeAliasKey)
        ++ [{| scope := lifetimeScopeFor r; registration := r |}]]> registry.

Definition set_registrationScope (registry : RegistrationScope) (s : Store) : Store :=
  {| m_registrationScope := registry;
     m_activationStack := m_activationStack s;
     m_activatedRegistrations := m_activatedRegistrations s;
     m_mutex := m_mutex s;
     lifetimeScopes := lifetimeScopes s |}.

Definition set_mutex (held : nat) (s : Store) : Store :=
  {| m_registrationScope := m_registrationScope s;
     m_activationStack := m_activationStack s;
     m_activatedRegistrations := m_activatedRegistrations s;
     m_mutex := held;
     lifetimeScopes := lifetimeScopes s |}.

(** [scope.addRegistration(...)] as the engine calls it (line 147). *)
Definition addRegistration (r : Registration) : M unit :=
  λ s,
    {| outcome := Returns ();
       store := set_registrationScope
                  (RegistrationScope_addRegistration (m_registrationScope s) r) s;
       calls := [call_addRegistration r] |}.

(** *** Scoped objects *)

(** The local [ResolutionContext resolutionContext] of line 89, built from
    the engine itself, [m_activationStack] and [m_activatedRegistrations]:
    alive until the enclosing function returns or unwinds. *)
Definition with_ResolutionContext {A} (body : ResolutionContext → M A) : M A :=
  λ s,
    let resolutionContext :=
      {| componentContext := this;
         activationStack := member_activationStack;
         activatedRegistrations := member_activatedRegistrations |} in
    let r := body resolutionContext s in
    {| outcome := outcome r;
       store := store r;
       calls := construct_ResolutionContext resolutionContext
                  :: calls r ++ [destroy_ResolutionContext] |}.

(** [std::lock_guard< decltype(m_mutex) > lock(m_mutex);] (line 91) on a
    [std::recursive_mutex]: one more hold for the running thread, given back
    when the enclosing function returns or unwinds. *)
Definition lock_guard {A} (body : M A) : M A :=
  λ s,
    let r := body (set_mutex (S (m_mutex s)) s) in
    {| outcome := outcome r;
       store := set_mutex (pred (m_mutex (store r))) (store r);
       calls := call_lock :: calls r ++ [call_unlock] |}.

(** [scope.getOrCreateComponent(typeAliasKey, registration, resolutionContext)]
    (line 94). *)
Definition invoke_getOrCreateComponent (sc : LifetimeScope) (typeAliasKey : TypeAliasKey)
    (r : Registration) (resolutionContext : ResolutionContext) : M shared_ptr :=
  λ s,
    let (result, s') := getOrCreateComponent sc typeAliasKey r resolutionContext s in
    {| outcome := result;
       store := s';
       calls := [call_getOrCreateComponent sc typeAliasKey r resolutionContext] |}.

(** *** [ComponentContext] *)

(** Lines 118-121. *)
Definition tryGetRegistrations (typeAliasKey : TypeAliasKey)
    (registrationContexts : list RegistrationContext)
    : M (bool * list RegistrationContext) :=
  λ s,
    {| outcome := Returns (RegistrationScope_tryGetRegistrations
                             (m_registrationScope s) typeAliasKey registrationContexts);
       store := s;
       calls := [call_tryGetRegistrations typeAliasKey] |}.

(** Lines 86-95, [resolve<T>(typeAliasKey, registrationContext)].
    [std::static_pointer_cast<T>] changes the static type of the pointer, not
    the pointer. *)
Definition resolve_context (typeAliasKey : TypeAliasKey)
    (registrationContext : RegistrationContext) : M shared_ptr :=
  with_ResolutionContext (λ resolutionContext,
    lock_guard (
      let sc := scope registrationContext in
      invoke_getOrCreateComponent sc typeAliasKey
        (registration registrationContext) resolutionContext)).

(** Lines 73-84, [resolve<T>(typeAliasKey)].  [registrationContexts.back()]
    is the last element of a vector known to be non-empty.  The template
    parameter only fixes the static type of the pointer returned. *)
Definition resolve_key (typeAliasKey : TypeAliasKey) : M shared_ptr :=
  found <- tryGetRegistrations typeAliasKey [] ;;
  if negb (fst found) then ret nullptr
  else
    match last (snd found) with
    | None => ret nullptr
    | Some back => resolve_context typeAliasKey back
    end.

(** Lines 107-116, the loop of [resolveAll<T>(typeAliasKey,
    registrationContexts)]: [instances] grows by [push_back]. *)
Fixpoint resolveAll_loop (typeAliasKey : TypeAliasKey)
    (registrationContexts : list RegistrationContext)
    (instances : list shared_ptr) : M (list shared_ptr) :=
  match registrationContexts with
  | [] => ret instances
  | registrationContext :: rest =>
      instance <- resolve_context typeAliasKey registrationContext ;;
      resolveAll_loop typeAliasKey rest (instances ++ [instance])
  end.

Definition resolveAll_contexts (typeAliasKey : TypeAliasKey)
    (registrationContexts : list RegistrationContext) : M (list shared_ptr) :=
  resolveAll_loop typeAliasKey registrationContexts [].

(** Lines 97-105, [resolveAll<T>(typeAliasKey)]. *)
Definition resolveAll_key (typeAliasKey : TypeAliasKey) : M (list shared_ptr) :=
  found <- tryGetRegistrations typeAliasKey [] ;;
  if negb (fst found) then ret []
  else resolveAll_contexts typeAliasKey (snd found).

(** Lines 142-154, the overload chosen when
    [Traits::HasAutowireableConstructor<T>] is [std::true_type]. *)
Definition tryToRegisterType_true_type (T : TypeInfo) : M bool :=
  let factory := DescribedConstructor T in
  _ <- addRegistration (build T factory) ;;
  ret true.

(** Lines 156-160, the overload for [std::false_type]. *)
Definition tryToRegisterType_false_type (T : TypeInfo) : M bool :=
  ret false.

(** Overload resolution on the tag [Traits::HasAutowireableConstructor<T>()]. *)
Definition tryToRegisterType (T : TypeInfo) : M bool :=
  if HasAutowireableConstructor T
  then tryToRegisterType_true_type T
  else tryToRegisterType_false_type T.

(** Lines 133-140. *)
Definition resolveIfTypeCanBeRegistered (T : TypeInfo) : M shared_ptr :=
  registered <- tryToRegisterType T ;;
  if negb registered then ret nullptr
  else resolve_key (createKeyForType T).

(** Lines 37-47, the public [resolve<T>()].  The [static_assert] on
    [Traits::IsComplete<T>] is checked by the compiler. *)
Definition resolve (T : TypeInfo) : M shared_ptr :=
  instance <- resolve_key (createKeyForType T) ;;
  match instance with
  | Some _ => ret instance
  | None => resolveIfTypeCanBeRegistered T
  end.

(** Lines 54-60, the public [resolveAll<T>()]. *)
Definition resolveAll (T : TypeInfo) : M (list shared_ptr) :=
  resolveAll_key (createKeyForType T).

End Members.

(** ** Vocabulary of the statements *)

Section Vocabulary.
Context `{Collaborators}.

(** The calls [before], then the run [r]. *)
Definition after {A} (before : list Call) (r : Run A) : Run A :=
  {| outcome := outcome r; store := store r; calls := before ++ calls r |}.

(** Nothing is registered for a key: the lookup reports nothing, or finds an
    empty sequence. *)
Definition unregistered (s : Store) (typeAliasKey : TypeAliasKey) : Prop :=
  m_registrationScope s !! typeAliasKey = None
  ∨ m_registrationScope s !! typeAliasKey = Some [].

(** The contexts registered for a key, in registration order. *)
Definition registrations (s : Store) (typeAliasKey : TypeAliasKey)
    : list RegistrationContext :=
  default [] (m_registrationScope s !! typeAliasKey).

(** The registration [tryToRegisterType] synthesizes for [T], and the
    context the registry wraps it in. *)
Definition synthesized (T : TypeInfo) : Registration :=
  build T (DescribedConstructor T).

Definition synthesized_context (T : TypeInfo) : RegistrationContext :=
  {| scope := lifetimeScopeFor (synthesized T); registration := synthesized T |}.

(** The [ResolutionContext] of line 89. *)
Definition resolutionContext_of_engine : ResolutionContext :=
  {| componentContext := this;
     activationStack := member_activationStack;
     activatedRegistrations := member_activatedRegistrations |}.

(** The calls of one [resolve<T>(typeAliasKey, registrationContext)]. *)
Definition production_calls (typeAliasKey : TypeAliasKey)
    (registrationContext : RegistrationContext) : list Call :=
  [ construct_ResolutionContext resolutionContext_of_engine;
    call_lock;
    call_getOrCreateComponent (scope registrationContext) typeAliasKey
      (registration registrationContext) resolutionContext_of_engine;
    call_unlock;
    destroy_ResolutionContext ].

(** What section 4.3 asks of [resolveAll<T>()], in its words: every
    registered context is resolved, in registration order, each through the
    same path as single resolution; the i-th instance comes from the i-th
    context, in the store the productions before it left. *)
Inductive resolved_in_order (typeAliasKey : TypeAliasKey)
  : list RegistrationContext → Store → list shared_ptr → Store → Prop :=
| resolved_none s :
    resolved_in_order typeAliasKey [] s [] s
| resolved_next registrationContext rest s instance instances s' :
    outcome (resolve_context typeAliasKey registrationContext s) = Returns instance →
    resolved_in_order typeAliasKey rest
      (store (resolve_context typeAliasKey registrationContext s)) instances s' →
    resolved_in_order typeAliasKey (registrationContext :: rest) s
      (instance :: instances) s'.


(** The shape of the calls of the engine: lookups, insertions and whole
    productions, in any number and order. *)
Inductive engine_calls : list Call → Prop :=
| engine_done : engine_calls []
| engine_lookup typeAliasKey rest :
    engine_calls rest → engine_calls (call_tryGetRegistrations typeAliasKey :: rest)
| engine_insertion r rest :
    engine_calls rest → engine_calls (call_addRegistration r :: rest)
| engine_production typeAliasKey registrationContext rest :
    engine_calls rest →
    engine_calls (production_calls typeAliasKey registrationContext ++ rest).

(** How many times the running thread holds [m_mutex] when each call is
    made, [held] being the number before the first call. *)
Fixpoint holds (held : nat) (cs : list Call) : list (Call * nat) :=
  match cs with
  | [] => []
  | call_lock :: rest => (call_lock, held) :: holds (S held) rest
  | call_unlock :: rest => (call_unlock, held) :: holds (pred held) rest
  | c :: rest => (c, held) :: holds held rest
  end.

(** Where the code takes the mutex: a call to [getOrCreateComponent] (and
    the unlock after it) finds one hold more than the engine was entered
    with, every other call finds what the engine was entered with. *)
Definition held_as_written (entered : nat) (entry : Call * nat) : Prop :=
  match entry.1 with
  | call_getOrCreateComponent _ _ _ _ | call_unlock => entry.2 = S entered
  | _ => entry.2 = entered
  end.




(** The store without the entry of a key. *)
Definition forget (typeAliasKey : TypeAliasKey) (s : Store) : Store :=
  set_registrationScope (delete typeAliasKey (m_registrationScope s)) s.

End Vocabulary.

(** ** The rest of the class *)

Section Rest.
Context `{Collaborators}.

(** Lines 25-30, the constructor: the engine keeps the registration scope it
    is given; its activation stacks and its mutex are default-constructed
    (empty stacks, a mutex nobody holds).  [scopes] is what the lifetime
    scopes hold at that time. *)
Definition new_ComponentContext (registrationScope : RegistrationScope)
    (scopes : ScopeState) : Store :=
  {| m_registrationScope := registrationScope;
     m_activationStack := [];
     m_activatedRegistrations := [];
     m_mutex := 0;
     lifetimeScopes := scopes |}.

(** A caller's request, and the store it leaves. *)
Inductive Request :=
| request_resolve (T : TypeInfo)
| request_resolveAll (T : TypeInfo).

Definition serve (request : Request) (s : Store) : Store :=
  match request with
  | request_resolve T => store (resolve T s)
  | request_resolveAll T => store (resolveAll T s)
  end.

(** Requests served one after the other, first to last. *)
Definition serve_all (requests : list Request) (s : Store) : Store :=
  fold_left (λ s request, serve request s) requests s.

(** What one production gives, the mutex held once more. *)
Definition produced (typeAliasKey : TypeAliasKey)
    (registrationContext : RegistrationContext) (s : Store)
    : Outcome shared_ptr * Store :=
  getOrCreateComponent (scope registrationContext) typeAliasKey
    (registration registrationContext) resolutionContext_of_engine
    (set_mutex (S (m_mutex s)) s).

End Rest.

(** ** Sentences of the specification, as they are written *)

(** Section 4.2, steps 2 and 4: with a registration for the key of [T],
    [resolve<T>()] returns what that registration's lifetime scope produced,
    null included, and inserts nothing: the fallback is for a lookup that
    found no registration. *)
Definition fallback_only_when_unregistered : Prop :=
  ∀ (app : Application) (col : Collaborators) (T : TypeInfo) (s : Store)
    earlier lastRegistered,
    m_registrationScope s !! createKeyForType T = Some (earlier ++ [lastRegistered]) →
    outcome (resolve T s)
    = outcome (resolve_context (createKeyForType T) lastRegistered s)
    ∧ ∀ r, call_addRegistration r ∉ calls (resolve T s).

(** Section 5: the mutex is held from the selection of the registration
    context to the end of [getOrCreateComponent], and every insertion of a
    synthesized registration is made while holding it. *)
Definition mutex_guards_selection_and_insertion : Prop :=
  ∀ (app : Application) (col : Collaborators) (T : TypeInfo) (s : Store) c held,
    (c, held) ∈ holds (m_mutex s) (calls (resolve T s)) →
    match c with
    | call_tryGetRegistrations _ | call_addRegistration _
    | call_getOrCreateComponent _ _ _ _ => 0 < held
    | _ => True
    end.



(** ** A small application *)

(** Three types, of which only ["Car"] has an autowireable constructor.  The
    lifetime scopes number the objects that constructors make; a registered
    factory with tag 0 declines to produce, one with tag [n + 1] always gives
    the object [100 + n]. *)
Module Garage.

#[export] Instance application : Application := {|
  TypeInfo := string;
  TypeAliasKey := string;
  createKeyForType := λ T, T;
  HasAutowireableConstructor := λ T, bool_decide (T = "Car");
  Object := nat;
  exception := string;
  LifetimeScope := nat;
  ScopeState := nat;
|}.

Definition made (s : Store) : Store :=
  {| m_registrationScope := m_registrationScope s;
     m_activationStack := m_activationStack s;
     m_activatedRegistrations := m_activatedRegistrations s;
     m_mutex := m_mutex s;
     lifetimeScopes := S (lifetimeScopes s) |}.

#[export] Instance collaborators : Collaborators := {|
  lifetimeScopeFor := λ _, 0;
  getOrCreateComponent := λ sc typeAliasKey r resolutionContext s,
    match instanceFactory r with
    | DescribedConstructor _ => (Returns (Some (lifetimeScopes s)), made s)
    | RegisteredFactory 0 => (Returns None, s)
    | RegisteredFactory (S n) => (Returns (Some (100 + n)), s)
    end;
|}.

Definition registered (T : string) (tag : nat) : RegistrationContext :=
  {| scope := 0; registration := build T (RegisteredFactory tag) |}.

Definition with_registry (registry : RegistrationScope) : Store :=
  {| m_registrationScope := registry;
     m_activationStack := [];
     m_activatedRegistrations := [];
     m_mutex := 0;
     lifetimeScopes := 0 |}.

(** Nothing registered. *)
Definition empty : Store := with_registry ∅.

(** ["Logger"] registered twice. *)
Definition two_loggers : Store :=
  with_registry {[ "Logger" := [registered "Logger" 1; registered "Logger" 2] ]}.

(** ["Car"] registered with a factory that declines. *)
Definition declined_car : Store :=
  with_registry {[ "Car" := [registered "Car" 0] ]}.

(** ["Wheel"] looked up with success, and no registration in the sequence. *)
Definition no_wheel : Store :=
  with_registry {[ "Wheel" := [] ]}.

End Garage.

(** ** Other lifetime scopes for the small application *)

Module Workshop.
Import Garage.

(** Every instance is there already: nothing is made, the store stays as it
    is. *)
Definition cached : Collaborators := {|
  lifetimeScopeFor := λ _, 0;
  getOrCreateComponent := λ sc typeAliasKey r resolutionContext s,
    match instanceFactory r with
    | DescribedConstructor _ => (Returns (Some 7), s)
    | RegisteredFactory 0 => (Returns None, s)
    | RegisteredFactory (S n) => (Returns (Some (100 + n)), s)
    end;
|}.

(** The registered factory with tag 0 runs into itself. *)
Definition faulty : Collaborators := {|
  lifetimeScopeFor := λ _, 0;
  getOrCreateComponent := λ sc typeAliasKey r resolutionContext s,
    match instanceFactory r with
    | DescribedConstructor _ => (Returns (Some 7), s)
    | RegisteredFactory 0 => (Throws "circular dependency", s)
    | RegisteredFactory (S n) => (Returns (Some (100 + n)), s)
    end;
|}.



(** The constructors throw. *)
Definition failing_constructors : Collaborators := {|
  lifetimeScopeFor := λ _, 0;
  getOrCreateComponent := λ sc typeAliasKey r resolutionContext s,
    match instanceFactory r with
    | DescribedConstructor _ => (Throws "constructor failed", s)
    | RegisteredFactory _ => (Returns None, s)
    end;
|}.

(** ["Logger"] registered three times, the second time with the factory
    that runs into itself. *)
Definition broken_loggers : Store :=
  with_registry
    {[ "Logger" := [registered "Logger" 1; registered "Logger" 0; registered "Logger" 2] ]}.


End Workshop.

(** ** Properties *)

Section Properties.
Context `{Collaborators}.

Implicit Types (T : TypeInfo) (s : Store) (typeAliasKey : TypeAliasKey).
Implicit Types (registrationContext : RegistrationContext).

(** *** Runs *)

Lemma bind_returns {A B} (m : M A) (f : A → M B) s a :
  outcome (m s) = Returns a →
  bind m f s = after (calls (m s)) (f a (store (m s))).
Proof. intros Hm. unfold bind, after. rewrite Hm. reflexivity. Qed.

Lemma bind_throws {A B} (m : M A) (f : A → M B) s e :
  outcome (m s) = Throws e →
  bind m f s = {| outcome := Throws e; store := store (m s); calls := calls (m s) |}.
Proof. intros Hm. unfold bind. rewrite Hm. reflexivity. Qed.

Lemma calls_bind {A B} (m : M A) (f : A → M B) s :
  calls (bind m f s) =
    calls (m s) ++ match outcome (m s) with
                   | Returns a => calls (f a (store (m s)))
                   | Throws _ => []
                   end.
Proof. unfold bind. destruct (outcome (m s)); simpl; by rewrite ?app_nil_r. Qed.

Lemma after_after {A} (c1 c2 : list Call) (r : Run A) :
  after c1 (after c2 r) = after (c1 ++ c2) r.
Proof. unfold after. simpl. by rewrite app_assoc. Qed.

(** *** The steps, unfolded *)

(** One production: the context is built, the mutex taken, the lifetime
    scope called with one more hold, and both are given back. *)
Lemma resolve_context_run typeAliasKey registrationContext s :
  resolve_context typeAliasKey registrationContext s =
    let produced :=
      getOrCreateComponent (scope registrationContext) typeAliasKey
        (registration registrationContext) resolutionContext_of_engine
        (set_mutex (S (m_mutex s)) s) in
    {| outcome := produced.1;
       store := set_mutex (pred (m_mutex produced.2)) produced.2;
       calls := production_calls typeAliasKey registrationContext |}.
Proof.
  unfold resolve_context, with_ResolutionContext, lock_guard,
    invoke_getOrCreateComponent.
  fold resolutionContext_of_engine.
  by destruct (getOrCreateComponent _ _ _ _ _).
Qed.

Lemma resolve_context_calls typeAliasKey registrationContext s :
  calls (resolve_context typeAliasKey registrationContext s)
  = production_calls typeAliasKey registrationContext.
Proof. by rewrite resolve_context_run. Qed.

Lemma resolve_context_registry typeAliasKey registrationContext s :
  m_registrationScope (store (resolve_context typeAliasKey registrationContext s))
  = m_registrationScope
      (getOrCreateComponent (scope registrationContext) typeAliasKey
         (registration registrationContext) resolutionContext_of_engine
         (set_mutex (S (m_mutex s)) s)).2.
Proof. by rewrite resolve_context_run. Qed.

Lemma resolve_key_unregistered typeAliasKey s :
  unregistered s typeAliasKey →
  resolve_key typeAliasKey s =
    {| outcome := Returns nullptr; store := s;
       calls := [call_tryGetRegistrations typeAliasKey] |}.
Proof.
  intros [Hnone | Hempty];
    unfold resolve_key, bind, tryGetRegistrations, RegistrationScope_tryGetRegistrations;
    simpl; [rewrite Hnone | rewrite Hempty]; reflexivity.
Qed.

Lemma resolve_key_registered typeAliasKey s earlier back :
  m_registrationScope s !! typeAliasKey = Some (earlier ++ [back]) →
  resolve_key typeAliasKey s =
    after [call_tryGetRegistrations typeAliasKey] (resolve_context typeAliasKey back s).
Proof.
  intros Hfound.
  unfold resolve_key, bind, tryGetRegistrations, RegistrationScope_tryGetRegistrations.
  simpl. rewrite Hfound. simpl. rewrite last_snoc. reflexivity.
Qed.

Lemma tryToRegisterType_run T s :
  tryToRegisterType T s =
    if HasAutowireableConstructor T
    then {| outcome := Returns true;
            store := store (addRegistration (synthesized T) s);
            calls := [call_addRegistration (synthesized T)] |}
    else {| outcome := Returns false; store := s; calls := [] |}.
Proof. unfold tryToRegisterType. by destruct (HasAutowireableConstructor T). Qed.

Lemma resolveIfTypeCanBeRegistered_no T s :
  HasAutowireableConstructor T = false →
  resolveIfTypeCanBeRegistered T s =
    {| outcome := Returns nullptr; store := s; calls := [] |}.
Proof.
  intros Hno. unfold resolveIfTypeCanBeRegistered, bind.
  rewrite tryToRegisterType_run, Hno. reflexivity.
Qed.

Lemma resolveIfTypeCanBeRegistered_yes T s :
  HasAutowireableConstructor T = true →
  resolveIfTypeCanBeRegistered T s =
    after [call_addRegistration (synthesized T)]
      (resolve_key (createKeyForType T) (store (addRegistration (synthesized T) s))).
Proof.
  intros Hyes. unfold resolveIfTypeCanBeRegistered, bind.
  rewrite tryToRegisterType_run, Hyes. reflexivity.
Qed.

(** The insertion appends: the sequence of the key grows by the synthesized
    context, at its end. *)
Lemma addRegistration_appends T s :
  m_registrationScope (store (addRegistration (synthesized T) s)) !! createKeyForType T
  = Some (default [] (m_registrationScope s !! createKeyForType T)
            ++ [synthesized_context T]).
Proof.
  unfold addRegistration, RegistrationScope_addRegistration. simpl.
  by rewrite lookup_insert_eq.
Qed.

Lemma addRegistration_unregistered T s :
  unregistered s (createKeyForType T) →
  m_registrationScope (store (addRegistration (synthesized T) s)) !! createKeyForType T
  = Some [synthesized_context T].
Proof. intros Hun. rewrite addRegistration_appends. by destruct Hun as [-> | ->]. Qed.

(** *** [resolve<T>()], case by case *)

Lemma resolve_unregistered T s :
  unregistered s (createKeyForType T) →
  resolve T s =
    after [call_tryGetRegistrations (createKeyForType T)]
      (resolveIfTypeCanBeRegistered T s).
Proof.
  intros Hun. unfold resolve.
  rewrite (bind_returns _ _ s nullptr); rewrite (resolve_key_unregistered _ _ Hun); done.
Qed.

Lemma resolve_registered_instance T s earlier back instance :
  m_registrationScope s !! createKeyForType T = Some (earlier ++ [back]) →
  outcome (resolve_context (createKeyForType T) back s) = Returns (Some instance) →
  resolve T s =
    after [call_tryGetRegistrations (createKeyForType T)]
      (resolve_context (createKeyForType T) back s).
Proof.
  intros Hfound Hprod. unfold resolve.
  rewrite (bind_returns _ _ s (Some instance));
    rewrite (resolve_key_registered _ _ _ _ Hfound); [|done].
  unfold after, ret. cbn [outcome store calls]. by rewrite app_nil_r, Hprod.
Qed.

Lemma resolve_registered_throws T s earlier back e :
  m_registrationScope s !! createKeyForType T = Some (earlier ++ [back]) →
  outcome (resolve_context (createKeyForType T) back s) = Throws e →
  resolve T s =
    after [call_tryGetRegistrations (createKeyForType T)]
      (resolve_context (createKeyForType T) back s).
Proof.
  intros Hfound Hprod. unfold resolve.
  rewrite (bind_throws _ _ s e); rewrite (resolve_key_registered _ _ _ _ Hfound);
    [|done].
  unfold after. cbn [outcome store calls]. by rewrite Hprod.
Qed.

Lemma resolve_registered_null T s earlier back :
  m_registrationScope s !! createKeyForType T = Some (earlier ++ [back]) →
  outcome (resolve_context (createKeyForType T) back s) = Returns nullptr →
  resolve T s =
    after (call_tryGetRegistrations (createKeyForType T)
             :: production_calls (createKeyForType T) back)
      (resolveIfTypeCanBeRegistered T
         (store (resolve_context (createKeyForType T) back s))).
Proof.
  intros Hfound Hprod. unfold resolve.
  rewrite (bind_returns _ _ s nullptr);
    rewrite (resolve_key_registered _ _ _ _ Hfound); [|done].
  unfold after. cbn [outcome store calls]. by rewrite resolve_context_calls.
Qed.

Lemma resolve_unregistered_autowireable T s :
  unregistered s (createKeyForType T) →
  HasAutowireableConstructor T = true →
  resolve T s =
    after [call_tryGetRegistrations (createKeyForType T);
           call_addRegistration (synthesized T);
           call_tryGetRegistrations (createKeyForType T)]
      (resolve_context (createKeyForType T) (synthesized_context T)
         (store (addRegistration (synthesized T) s))).
Proof.
  intros Hun Hyes.
  rewrite (resolve_unregistered _ _ Hun), resolveIfTypeCanBeRegistered_yes by done.
  rewrite (resolve_key_registered _ _ [] (synthesized_context T))
    by (by apply addRegistration_unregistered).
  by rewrite !after_after.
Qed.

(** *** Single resolution *)

(** C1. When registrations exist for the key of [T], the lookup step of
    [resolve<T>()] selects the last one of the sequence the registry returns
    and hands it to its lifetime scope; the instance it produces is what
    [resolve<T>()] returns (and an exception it throws is what
    [resolve<T>()] throws).  The engine makes one lookup and one production
    and nothing else: the earlier registrations are neither produced nor
    removed, the registry after the call is the one the lifetime scope
    left. *)
Theorem resolve_selects_last_registered T s earlier lastRegistered :
  m_registrationScope s !! createKeyForType T = Some (earlier ++ [lastRegistered]) →
  let typeAliasKey := createKeyForType T in
  let production := resolve_context typeAliasKey lastRegistered s in
  resolve_key typeAliasKey s = after [call_tryGetRegistrations typeAliasKey] production
  ∧ (∀ instance, outcome production = Returns (Some instance) →
       resolve T s = after [call_tryGetRegistrations typeAliasKey] production)
  ∧ (∀ e, outcome production = Throws e →
       resolve T s = after [call_tryGetRegistrations typeAliasKey] production)
  ∧ calls production = production_calls typeAliasKey lastRegistered
  ∧ (let produced :=
       getOrCreateComponent (scope lastRegistered) typeAliasKey
         (registration lastRegistered) resolutionContext_of_engine
         (set_mutex (S (m_mutex s)) s) in
     m_registrationScope (store production) = m_registrationScope produced.2
     ∧ (m_registrationScope produced.2 = m_registrationScope s →
        m_registrationScope (store production) !! typeAliasKey
        = Some (earlier ++ [lastRegistered]))).
Proof.
  intros Hfound. cbv zeta.
  split; [by eapply resolve_key_registered|].
  split; [intros instance; by eapply resolve_registered_instance|].
  split; [intros e; by eapply resolve_registered_throws|].
  split; [apply resolve_context_calls|].
  split; [apply resolve_context_registry|].
  intros Hkept. by rewrite resolve_context_registry, Hkept.
Qed.

(** C3 (amended). With registrations for the key of [T], [resolve<T>()]
    returns the instance the last one's lifetime scope produced when there is
    one.  When the production returns null, [resolve<T>()] goes on to
    [resolveIfTypeCanBeRegistered<T>()], as it does when nothing is
    registered: it returns null if [T] has no autowireable constructor, and
    otherwise appends a synthesized registration after the existing ones and
    returns what one production on it gives. *)
Theorem resolve_null_production_falls_back T s earlier lastRegistered :
  m_registrationScope s !! createKeyForType T = Some (earlier ++ [lastRegistered]) →
  let typeAliasKey := createKeyForType T in
  let production := resolve_context typeAliasKey lastRegistered s in
  let first := call_tryGetRegistrations typeAliasKey
                 :: production_calls typeAliasKey lastRegistered in
  let inserted := store (addRegistration (synthesized T) (store production)) in
  (∀ instance, outcome production = Returns (Some instance) →
     resolve T s =
       {| outcome := Returns (Some instance); store := store production;
          calls := first |})
  ∧ (outcome production = Returns nullptr →
       resolve T s = after first (resolveIfTypeCanBeRegistered T (store production)))
  ∧ (outcome production = Returns nullptr →
     HasAutowireableConstructor T = false →
       resolve T s =
         {| outcome := Returns nullptr; store := store production; calls := first |})
  ∧ (outcome production = Returns nullptr →
     HasAutowireableConstructor T = true →
       m_registrationScope inserted !! typeAliasKey
       = Some (default [] (m_registrationScope (store production) !! typeAliasKey)
                 ++ [synthesized_context T])
       ∧ resolve T s =
           after (first ++ [call_addRegistration (synthesized T);
                            call_tryGetRegistrations typeAliasKey])
             (resolve_context typeAliasKey (synthesized_context T) inserted)).
Proof.
  intros Hfound. cbv zeta.
  split.
  { intros instance Hprod.
    rewrite (resolve_registered_instance _ _ _ _ _ Hfound Hprod).
    unfold after. by rewrite Hprod, resolve_context_calls. }
  split; [apply (resolve_registered_null _ _ _ _ Hfound)|].
  split.
  { intros Hprod Hno.
    rewrite (resolve_registered_null _ _ _ _ Hfound Hprod),
      resolveIfTypeCanBeRegistered_no by done.
    unfold after. cbn [outcome store calls]. by rewrite app_nil_r. }
  intros Hprod Hyes. split; [apply addRegistration_appends|].
  rewrite (resolve_registered_null _ _ _ _ Hfound Hprod),
    resolveIfTypeCanBeRegistered_yes by done.
  rewrite (resolve_key_registered (createKeyForType T) _ _ (synthesized_context T)
             (addRegistration_appends T _)).
  by rewrite !after_after, <- app_assoc.
Qed.

(** C4. With nothing registered for the key of [T] and no autowireable
    constructor, [resolve<T>()] returns the null pointer: it returns, it does
    not throw, and it leaves the store as it found it. *)
Theorem resolve_unregistered_returns_null T s :
  unregistered s (createKeyForType T) →
  HasAutowireableConstructor T = false →
  resolve T s =
    {| outcome := Returns nullptr; store := s;
       calls := [call_tryGetRegistrations (createKeyForType T)] |}.
Proof.
  intros Hun Hno.
  by rewrite (resolve_unregistered _ _ Hun), resolveIfTypeCanBeRegistered_no.
Qed.

(** C5. With nothing registered for the key of an autowireable [T],
    [resolve<T>()] synthesizes one registration, inserts it (it is then the
    only one for the key), and runs one production, on it.  The call is that
    and nothing more: whatever the production gives, null included, is the
    result, and the store is the one the production left. *)
Theorem resolve_registers_then_retries_once T s :
  unregistered s (createKeyForType T) →
  HasAutowireableConstructor T = true →
  let typeAliasKey := createKeyForType T in
  let inserted := store (addRegistration (synthesized T) s) in
  let retry := resolve_context typeAliasKey (synthesized_context T) inserted in
  m_registrationScope inserted !! typeAliasKey = Some [synthesized_context T]
  ∧ resolve T s =
      after [call_tryGetRegistrations typeAliasKey;
             call_addRegistration (synthesized T);
             call_tryGetRegistrations typeAliasKey] retry
  ∧ calls (resolve T s) =
      [call_tryGetRegistrations typeAliasKey;
       call_addRegistration (synthesized T);
       call_tryGetRegistrations typeAliasKey]
      ++ production_calls typeAliasKey (synthesized_context T)
  ∧ (outcome retry = Returns nullptr →
       outcome (resolve T s) = Returns nullptr ∧ store (resolve T s) = store retry).
Proof.
  intros Hun Hyes. cbv zeta.
  rewrite (resolve_unregistered_autowireable _ _ Hun Hyes).
  unfold after. cbn [outcome store calls].
  split; [by apply addRegistration_unregistered|].
  split; [done|].
  split; [by rewrite resolve_context_calls | done].
Qed.

(** C10. A lookup that succeeds with an empty sequence makes the lookup step
    return null without a production, and [resolve<T>()] goes on to
    [resolveIfTypeCanBeRegistered<T>()], as it does when the key is missing
    from the registry: started from the same store with and without the
    empty entry, [resolve<T>()] gives the same result and makes the same
    calls, and ends in the same store once a registration was inserted. *)
Theorem resolve_empty_lookup_like_missing T s :
  m_registrationScope s !! createKeyForType T = Some [] →
  let typeAliasKey := createKeyForType T in
  let missing := forget typeAliasKey s in
  resolve_key typeAliasKey s =
    {| outcome := Returns nullptr; store := s;
       calls := [call_tryGetRegistrations typeAliasKey] |}
  ∧ resolve T s =
      after [call_tryGetRegistrations typeAliasKey] (resolveIfTypeCanBeRegistered T s)
  ∧ m_registrationScope missing !! typeAliasKey = None
  ∧ resolve T missing =
      after [call_tryGetRegistrations typeAliasKey]
        (resolveIfTypeCanBeRegistered T missing)
  ∧ outcome (resolve T s) = outcome (resolve T missing)
  ∧ calls (resolve T s) = calls (resolve T missing)
  ∧ (HasAutowireableConstructor T = true →
       store (resolve T s) = store (resolve T missing))
  ∧ (HasAutowireableConstructor T = false →
       store (resolve T s) = s ∧ store (resolve T missing) = missing).
Proof.
  intros Hempty. cbv zeta.
  assert (Hgone : m_registrationScope (forget (createKeyForType T) s)
                    !! createKeyForType T = None)
    by (unfold forget; simpl; apply lookup_delete_eq).
  assert (Hs : unregistered s (createKeyForType T)) by (by right).
  assert (Hm : unregistered (forget (createKeyForType T) s) (createKeyForType T))
    by (by left).
  split; [by apply resolve_key_unregistered|].
  split; [by apply resolve_unregistered|].
  split; [exact Hgone|].
  split; [by apply resolve_unregistered|].
  rewrite (resolve_unregistered _ _ Hs), (resolve_unregistered _ _ Hm).
  destruct (HasAutowireableConstructor T) eqn:Hauto.
  - assert (Hsame : store (addRegistration (synthesized T) s)
                    = store (addRegistration (synthesized T)
                               (forget (createKeyForType T) s))).
    { unfold addRegistration, RegistrationScope_addRegistration, forget.
      unfold set_registrationScope. simpl. f_equal.
      rewrite Hempty, lookup_delete_eq. simpl. by rewrite insert_delete_eq. }
    rewrite !resolveIfTypeCanBeRegistered_yes by done. rewrite Hsame.
    repeat split; done.
  - rewrite !resolveIfTypeCanBeRegistered_no by done.
    repeat split; done.
Qed.

(** *** Plural resolution *)

Lemma resolveAll_loop_in_order typeAliasKey registrationContexts :
  ∀ instances s all s',
    outcome (resolveAll_loop typeAliasKey registrationContexts instances s) = Returns all
    ∧ store (resolveAll_loop typeAliasKey registrationContexts instances s) = s'
    ↔ ∃ new, all = instances ++ new
             ∧ resolved_in_order typeAliasKey registrationContexts s new s'.
Proof.
  induction registrationContexts as [|rc rest IH]; intros instances s all s'.
  - simpl. unfold ret. simpl. split.
    + intros [[= <-] <-]. exists []. split; [by rewrite app_nil_r | constructor].
    + intros (new & -> & Hnew). inversion Hnew; subst. by rewrite app_nil_r.
  - simpl. destruct (outcome (resolve_context typeAliasKey rc s)) as [instance|e] eqn:Hrc.
    + rewrite (bind_returns _ _ s instance Hrc). unfold after. cbn [outcome store].
      rewrite IH. split.
      * intros (new & -> & Hnew). exists (instance :: new). split.
        -- by rewrite <- app_assoc.
        -- by econstructor.
      * intros (new & -> & Hnew). inversion Hnew as [|? ? ? i' ? ? Hi Hrest]; subst.
        rewrite Hrc in Hi. injection Hi as <-.
        eexists. split; [|exact Hrest]. by rewrite <- app_assoc.
    + rewrite (bind_throws _ _ s e Hrc). cbn [outcome store]. split.
      * intros [[=] _].
      * intros (new & _ & Hnew). inversion Hnew; subst. congruence.
Qed.

Lemma resolveAll_loop_calls typeAliasKey registrationContexts :
  ∀ instances s all,
    outcome (resolveAll_loop typeAliasKey registrationContexts instances s) = Returns all →
    calls (resolveAll_loop typeAliasKey registrationContexts instances s)
    = concat (map (production_calls typeAliasKey) registrationContexts).
Proof.
  induction registrationContexts as [|rc rest IH]; intros instances s all; [done|].
  simpl resolveAll_loop.
  destruct (outcome (resolve_context typeAliasKey rc s)) as [instance|e] eqn:Hrc.
  - rewrite (bind_returns _ _ s instance Hrc). unfold after. cbn [outcome calls].
    intros Hall. rewrite (IH _ _ _ Hall), resolve_context_calls. reflexivity.
  - rewrite (bind_throws _ _ s e Hrc). by cbn [outcome].
Qed.

Lemma resolved_in_order_length typeAliasKey registrationContexts s instances s' :
  resolved_in_order typeAliasKey registrationContexts s instances s' →
  length instances = length registrationContexts.
Proof. induction 1; simpl; congruence. Qed.

Lemma resolved_in_order_lookup typeAliasKey registrationContexts s instances s' :
  resolved_in_order typeAliasKey registrationContexts s instances s' →
  ∀ i registrationContext,
    registrationContexts !! i = Some registrationContext →
    ∃ instance si,
      instances !! i = Some instance
      ∧ outcome (resolve_context typeAliasKey registrationContext si) = Returns instance.
Proof.
  induction 1 as [|rc rest s instance instances s' Hrc Hrest IH]; intros i rc' Hi.
  - by rewrite lookup_nil in Hi.
  - destruct i as [|i]; simpl in Hi.
    + injection Hi as <-. by exists instance, s.
    + apply (IH i rc' Hi).
Qed.

Lemma resolveAll_key_found typeAliasKey s registrationContexts :
  m_registrationScope s !! typeAliasKey = Some registrationContexts →
  resolveAll_key typeAliasKey s =
    after [call_tryGetRegistrations typeAliasKey]
      (resolveAll_loop typeAliasKey registrationContexts [] s).
Proof.
  intros Hfound.
  unfold resolveAll_key, bind, tryGetRegistrations, RegistrationScope_tryGetRegistrations.
  simpl. rewrite Hfound. reflexivity.
Qed.

Lemma resolveAll_key_missing typeAliasKey s :
  m_registrationScope s !! typeAliasKey = None →
  resolveAll_key typeAliasKey s =
    {| outcome := Returns []; store := s;
       calls := [call_tryGetRegistrations typeAliasKey] |}.
Proof.
  intros Hnone.
  unfold resolveAll_key, bind, tryGetRegistrations, RegistrationScope_tryGetRegistrations.
  simpl. by rewrite Hnone.
Qed.

Lemma resolveAll_run T s :
  resolveAll T s =
    after [call_tryGetRegistrations (createKeyForType T)]
      (resolveAll_loop (createKeyForType T) (registrations s (createKeyForType T)) [] s).
Proof.
  unfold resolveAll, registrations.
  destruct (m_registrationScope s !! createKeyForType T) as [found|] eqn:Hfound.
  - by apply resolveAll_key_found.
  - by rewrite (resolveAll_key_missing _ _ Hfound).
Qed.


(** C2. [resolveAll<T>()] resolves every context registered for the key of
    [T], first to last, each through the production step of single
    resolution: it returns a sequence exactly when every production returns,
    and then the sequence has one instance per registered context, the i-th
    produced from the i-th context, in registration order. *)
Theorem resolveAll_resolves_each_in_order T s :
  let typeAliasKey := createKeyForType T in
  let registrationContexts := registrations s typeAliasKey in
  (∀ instances s',
     outcome (resolveAll T s) = Returns instances ∧ store (resolveAll T s) = s'
     ↔ resolved_in_order typeAliasKey registrationContexts s instances s')
  ∧ (∀ instances,
       outcome (resolveAll T s) = Returns instances →
       length instances = length registrationContexts
       ∧ (∀ i registrationContext,
            registrationContexts !! i = Some registrationContext →
            ∃ instance si,
              instances !! i = Some instance
              ∧ outcome (resolve_context typeAliasKey registrationContext si)
                = Returns instance)
       ∧ calls (resolveAll T s) =
           call_tryGetRegistrations typeAliasKey
             :: concat (map (production_calls typeAliasKey) registrationContexts)).
Proof.
  cbv zeta.
  assert (Hspec : ∀ instances s',
            outcome (resolveAll T s) = Returns instances ∧ store (resolveAll T s) = s'
            ↔ resolved_in_order (createKeyForType T)
                (registrations s (createKeyForType T)) s instances s').
  { intros instances s'. rewrite resolveAll_run. unfold after. cbn [outcome store].
    rewrite resolveAll_loop_in_order. split.
    - by intros (new & -> & Hnew).
    - intros Hnew. by exists instances. }
  split; [exact Hspec|].
  intros instances Hall.
  assert (Hord : resolved_in_order (createKeyForType T)
                   (registrations s (createKeyForType T)) s instances
                   (store (resolveAll T s))) by (by apply Hspec).
  split; [by eapply resolved_in_order_length|].
  split; [by eapply resolved_in_order_lookup|].
  rewrite resolveAll_run in Hall |- *. unfold after in *. cbn [outcome calls] in *.
  by rewrite (resolveAll_loop_calls _ _ _ _ _ Hall).
Qed.

(** C7. With nothing registered for the key of [T], [resolveAll<T>()]
    returns the empty sequence after its one lookup: no registration is
    synthesized or inserted, and the store (the registry with it) is the one
    it started from, whether or not [T] has an autowireable constructor. *)
Theorem resolveAll_unregistered_is_empty T s :
  unregistered s (createKeyForType T) →
  resolveAll T s =
    {| outcome := Returns []; store := s;
       calls := [call_tryGetRegistrations (createKeyForType T)] |}.
Proof.
  intros [Hnone | Hempty]; unfold resolveAll.
  - by apply resolveAll_key_missing.
  - by rewrite (resolveAll_key_found _ _ [] Hempty).
Qed.

(** *** Registering once *)


(** *** The calls of the engine *)

Lemma engine_calls_app cs1 cs2 :
  engine_calls cs1 → engine_calls cs2 → engine_calls (cs1 ++ cs2).
Proof.
  induction 1 as [|typeAliasKey rest _ IH|r rest _ IH|typeAliasKey rc rest _ IH];
    intros Hcs2.
  - done.
  - apply engine_lookup, IH, Hcs2.
  - apply engine_insertion, IH, Hcs2.
  - rewrite <- app_assoc. apply engine_production, IH, Hcs2.
Qed.

Lemma engine_calls_bind {A B} (m : M A) (f : A → M B) s :
  engine_calls (calls (m s)) →
  (∀ a s', engine_calls (calls (f a s'))) →
  engine_calls (calls (bind m f s)).
Proof.
  intros Hm Hf. rewrite calls_bind. apply engine_calls_app; [done|].
  destruct (outcome (m s)); [apply Hf | constructor].
Qed.

Lemma engine_calls_resolve_context typeAliasKey registrationContext s :
  engine_calls (calls (resolve_context typeAliasKey registrationContext s)).
Proof.
  rewrite resolve_context_calls, <- (app_nil_r (production_calls _ _)).
  repeat constructor.
Qed.

Lemma engine_calls_resolve_key typeAliasKey s :
  engine_calls (calls (resolve_key typeAliasKey s)).
Proof.
  unfold resolve_key. apply engine_calls_bind.
  - repeat constructor.
  - intros [found registrationContexts] s'. simpl.
    destruct found; simpl; [|constructor].
    destruct (last registrationContexts); [|constructor].
    apply engine_calls_resolve_context.
Qed.

Lemma engine_calls_resolveIfTypeCanBeRegistered T s :
  engine_calls (calls (resolveIfTypeCanBeRegistered T s)).
Proof.
  unfold resolveIfTypeCanBeRegistered. apply engine_calls_bind.
  - rewrite tryToRegisterType_run.
    destruct (HasAutowireableConstructor T); repeat constructor.
  - intros [] s'; simpl; [apply engine_calls_resolve_key | constructor].
Qed.

Lemma engine_calls_resolve T s : engine_calls (calls (resolve T s)).
Proof.
  unfold resolve. apply engine_calls_bind.
  - apply engine_calls_resolve_key.
  - intros [instance|] s'; [constructor|].
    apply engine_calls_resolveIfTypeCanBeRegistered.
Qed.

Lemma engine_calls_resolveAll_loop typeAliasKey registrationContexts :
  ∀ instances s,
    engine_calls (calls (resolveAll_loop typeAliasKey registrationContexts instances s)).
Proof.
  induction registrationContexts as [|rc rest IH]; intros instances s; simpl.
  - constructor.
  - apply engine_calls_bind; [apply engine_calls_resolve_context|].
    intros instance s'. apply IH.
Qed.

Lemma engine_calls_resolveAll T s : engine_calls (calls (resolveAll T s)).
Proof.
  unfold resolveAll, resolveAll_key. apply engine_calls_bind.
  - repeat constructor.
  - intros [found registrationContexts] s'. simpl.
    destruct found; simpl; [|constructor].
    apply engine_calls_resolveAll_loop.
Qed.

(** The mutex is as free after a run of the engine as before, held once
    more during each production and at no other call. *)
Lemma engine_calls_holds cs :
  engine_calls cs → ∀ entered, Forall (held_as_written entered) (holds entered cs).
Proof.
  induction 1 as [|typeAliasKey rest _ IH|r rest _ IH|typeAliasKey rc rest _ IH];
    intros entered; simpl.
  - constructor.
  - constructor; [done | apply IH].
  - constructor; [done | apply IH].
  - repeat (constructor; [done|]). apply IH.
Qed.









(** C8 (amended). The engine has one re-entrant mutex, its member
    [m_mutex].  A production takes it once the registration context has been
    selected and the [ResolutionContext] built, holds it while
    [getOrCreateComponent] runs, and gives it back when the production
    returns or throws.  Every other call of [resolve<T>()] and
    [resolveAll<T>()], the registry lookups and the insertion of a
    synthesized registration among them, is made with the mutex as it was
    when the engine was entered: not held, unless an enclosing production of
    the same thread holds it. *)
Theorem mutex_held_during_production_only T s :
  let entered := m_mutex s in
  (∀ typeAliasKey registrationContext,
     let produced :=
       getOrCreateComponent (scope registrationContext) typeAliasKey
         (registration registrationContext) resolutionContext_of_engine
         (set_mutex (S entered) s) in
     outcome (resolve_context typeAliasKey registrationContext s) = produced.1
     ∧ store (resolve_context typeAliasKey registrationContext s)
       = set_mutex (pred (m_mutex produced.2)) produced.2
     ∧ holds entered (calls (resolve_context typeAliasKey registrationContext s))
       = [ (construct_ResolutionContext resolutionContext_of_engine, entered);
           (call_lock, entered);
           (call_getOrCreateComponent (scope registrationContext) typeAliasKey
              (registration registrationContext) resolutionContext_of_engine,
            S entered);
           (call_unlock, S entered);
           (destroy_ResolutionContext, entered) ])
  ∧ Forall (held_as_written entered) (holds entered (calls (resolve T s)))
  ∧ Forall (held_as_written entered) (holds entered (calls (resolveAll T s)))
  ∧ (unregistered s (createKeyForType T) →
     HasAutowireableConstructor T = true →
     holds entered (calls (resolve T s))
     = [ (call_tryGetRegistrations (createKeyForType T), entered);
         (call_addRegistration (synthesized T), entered);
         (call_tryGetRegistrations (createKeyForType T), entered);
         (construct_ResolutionContext resolutionContext_of_engine, entered);
         (call_lock, entered);
         (call_getOrCreateComponent (lifetimeScopeFor (synthesized T))
            (createKeyForType T) (synthesized T) resolutionContext_of_engine,
          S entered);
         (call_unlock, S entered);
         (destroy_ResolutionContext, entered) ]).
Proof.
  cbv zeta. split.
  { intros typeAliasKey registrationContext.
    by rewrite resolve_context_run. }
  split; [apply engine_calls_holds, engine_calls_resolve|].
  split; [apply engine_calls_holds, engine_calls_resolveAll|].
  intros Hun Hyes. rewrite (resolve_unregistered_autowireable _ _ Hun Hyes).
  unfold after. cbn [calls]. by rewrite resolve_context_calls.
Qed.

End Properties.

(** ** Further properties of the engine *)

Section Further.
Context `{Collaborators}.

Implicit Types (T : TypeInfo) (s : Store) (typeAliasKey : TypeAliasKey).
Implicit Types (registrationContext : RegistrationContext).

Lemma store_bind {A B} (m : M A) (f : A → M B) s :
  store (bind m f s) =
    match outcome (m s) with
    | Returns a => store (f a (store (m s)))
    | Throws _ => store (m s)
    end.
Proof. unfold bind. by destruct (outcome (m s)). Qed.


Lemma set_mutex_set_mutex (held held' : nat) s :
  set_mutex held (set_mutex held' s) = set_mutex held s.
Proof. done. Qed.

Lemma set_mutex_same s : set_mutex (m_mutex s) s = s.
Proof. by destruct s. Qed.

Lemma resolve_context_produced typeAliasKey registrationContext s :
  resolve_context typeAliasKey registrationContext s =
    {| outcome := (produced typeAliasKey registrationContext s).1;
       store := set_mutex (pred (m_mutex (produced typeAliasKey registrationContext s).2))
                  (produced typeAliasKey registrationContext s).2;
       calls := production_calls typeAliasKey registrationContext |}.
Proof. apply resolve_context_run. Qed.

(** *** The store changes through productions and insertions only *)

Section Kept.
Variable P : Store → Prop.
Hypothesis production_keeps :
  ∀ typeAliasKey registrationContext s,
    P s → P (store (resolve_context typeAliasKey registrationContext s)).

Lemma resolve_key_keeps typeAliasKey s : P s → P (store (resolve_key typeAliasKey s)).
Proof.
  intros Hs. unfold resolve_key. rewrite store_bind. simpl.
  destruct (RegistrationScope_tryGetRegistrations _ _ _) as [[] found]; simpl; [|done].
  destruct (last found); [|done]. by apply production_keeps.
Qed.

Lemma resolveAll_loop_keeps typeAliasKey registrationContexts :
  ∀ instances s,
    P s → P (store (resolveAll_loop typeAliasKey registrationContexts instances s)).
Proof.
  induction registrationContexts as [|rc rest IH]; intros instances s Hs; [done|].
  simpl. rewrite store_bind.
  pose proof (production_keeps typeAliasKey rc s Hs).
  destruct (outcome (resolve_context typeAliasKey rc s)); [by apply IH | done].
Qed.

Lemma resolveAll_keeps T s : P s → P (store (resolveAll T s)).
Proof.
  intros Hs. rewrite resolveAll_run. unfold after. cbn [store].
  by apply resolveAll_loop_keeps.
Qed.

Hypothesis insertion_keeps :
  ∀ T s, P s → P (store (addRegistration (synthesized T) s)).

Lemma resolveIfTypeCanBeRegistered_keeps T s :
  P s → P (store (resolveIfTypeCanBeRegistered T s)).
Proof.
  intros Hs. destruct (HasAutowireableConstructor T) eqn:Hauto.
  - rewrite resolveIfTypeCanBeRegistered_yes by done. unfold after. cbn [store].
    by apply resolve_key_keeps, insertion_keeps.
  - by rewrite resolveIfTypeCanBeRegistered_no.
Qed.

Lemma resolve_keeps T s : P s → P (store (resolve T s)).
Proof.
  intros Hs. unfold resolve. rewrite store_bind.
  pose proof (resolve_key_keeps (createKeyForType T) s Hs).
  destruct (outcome (resolve_key (createKeyForType T) s)) as [[instance|]|e]; try done.
  by apply resolveIfTypeCanBeRegistered_keeps.
Qed.

Lemma serve_all_keeps requests : ∀ s, P s → P (serve_all requests s).
Proof.
  unfold serve_all.
  induction requests as [|request rest IH]; intros s Hs; [done|].
  simpl. apply IH. destruct request; simpl; [by apply resolve_keeps | by apply resolveAll_keeps].
Qed.

End Kept.

(** *** The [ResolutionContext]s and the activation stacks *)



(** *** The mutex *)

(** X1. With lifetime scopes that give the mutex back as they found it,
    every production, every [resolve<T>()] and every [resolveAll<T>()] ends
    with the mutex held as many times as when it started, whether it
    returns or throws: the [lock_guard] of line 91 is released on both
    paths. *)
Theorem mutex_released_on_every_exit T s :
  (∀ sc typeAliasKey r c s0,
     m_mutex (getOrCreateComponent sc typeAliasKey r c s0).2 = m_mutex s0) →
  (∀ typeAliasKey registrationContext,
     m_mutex (store (resolve_context typeAliasKey registrationContext s)) = m_mutex s)
  ∧ m_mutex (store (resolve T s)) = m_mutex s
  ∧ m_mutex (store (resolveAll T s)) = m_mutex s.
Proof.
  intros Hbalanced.
  assert (Hstep : ∀ typeAliasKey registrationContext s0,
            m_mutex s0 = m_mutex s →
            m_mutex (store (resolve_context typeAliasKey registrationContext s0))
            = m_mutex s).
  { intros typeAliasKey registrationContext s0 Hs0.
    rewrite resolve_context_run. simpl. by rewrite Hbalanced. }
  split; [intros; by apply Hstep|].
  split.
  - by apply (resolve_keeps (λ s0, m_mutex s0 = m_mutex s)).
  - by apply (resolveAll_keeps (λ s0, m_mutex s0 = m_mutex s)).
Qed.

(** *** Exceptions *)

Lemma resolveAll_loop_resolved typeAliasKey resolved s new s1 :
  resolved_in_order typeAliasKey resolved s new s1 →
  ∀ instances following,
    resolveAll_loop typeAliasKey (resolved ++ following) instances s =
      after (concat (map (production_calls typeAliasKey) resolved))
        (resolveAll_loop typeAliasKey following (instances ++ new) s1).
Proof.
  induction 1 as [s|rc rest s instance new s1 Hrc Hrest IH]; intros instances following.
  - assert (Hnone : instances ++ [] = instances) by apply app_nil_r.
    rewrite Hnone. unfold after. simpl.
    by destruct (resolveAll_loop _ _ _ _).
  - simpl. rewrite (bind_returns _ _ s instance Hrc), IH, after_after.
    by rewrite resolve_context_calls, <- app_assoc.
Qed.

(** X3. [resolveAll<T>()] stops at the first production that throws: when
    the contexts before [failing] have been resolved and the production of
    [failing] throws, [resolveAll<T>()] throws that exception, the
    instances resolved so far are lost, the contexts after [failing] are not
    produced, and the store is the one the failing production left. *)
Theorem resolveAll_stops_at_first_throw T s resolved failing following instances s1 e :
  registrations s (createKeyForType T) = resolved ++ failing :: following →
  resolved_in_order (createKeyForType T) resolved s instances s1 →
  outcome (resolve_context (createKeyForType T) failing s1) = Throws e →
  resolveAll T s =
    {| outcome := Throws e;
       store := store (resolve_context (createKeyForType T) failing s1);
       calls := call_tryGetRegistrations (createKeyForType T)
                  :: concat (map (production_calls (createKeyForType T))
                               (resolved ++ [failing])) |}.
Proof.
  intros Hregistered Hresolved Hthrows.
  rewrite resolveAll_run, Hregistered, (resolveAll_loop_resolved _ _ _ _ _ Hresolved).
  simpl resolveAll_loop. rewrite (bind_throws _ _ s1 e Hthrows).
  unfold after. cbn [outcome store calls]. rewrite resolve_context_calls.
  rewrite map_app, concat_app. cbn [map concat]. by rewrite app_nil_r.
Qed.

(** *** The registry *)

Lemma resolveAll_loop_inserts_nothing typeAliasKey registrationContexts :
  ∀ instances s r,
    call_addRegistration r
      ∉ calls (resolveAll_loop typeAliasKey registrationContexts instances s).
Proof.
  induction registrationContexts as [|rc rest IH]; intros instances s r; simpl.
  - apply not_elem_of_nil.
  - rewrite calls_bind, resolve_context_calls. intros Hin.
    apply elem_of_app in Hin as [Hin|Hin].
    + unfold production_calls in Hin.
      repeat (apply elem_of_cons in Hin as [Hin|Hin]; [congruence|]).
      by apply elem_of_nil in Hin.
    + destruct (outcome (resolve_context typeAliasKey rc s)).
      * by apply IH in Hin.
      * by apply elem_of_nil in Hin.
Qed.

(** X4. [resolveAll<T>()] never registers anything, whatever is or is not
    registered and whatever the productions return: it makes no call to
    [addRegistration], and with lifetime scopes that leave the registry
    alone the registry after the call is the registry before it. *)
Theorem resolveAll_never_registers T s :
  (∀ r, call_addRegistration r ∉ calls (resolveAll T s))
  ∧ ((∀ sc typeAliasKey r c s0,
        m_registrationScope (getOrCreateComponent sc typeAliasKey r c s0).2
        = m_registrationScope s0) →
     m_registrationScope (store (resolveAll T s)) = m_registrationScope s).
Proof.
  split.
  - intros r. rewrite resolveAll_run. unfold after. cbn [calls]. intros Hin.
    apply elem_of_app in Hin as [Hin|Hin].
    + apply elem_of_cons in Hin as [Hin|Hin]; [congruence | by apply elem_of_nil in Hin].
    + by apply resolveAll_loop_inserts_nothing in Hin.
  - intros Hframe.
    apply (resolveAll_keeps (λ s0, m_registrationScope s0 = m_registrationScope s));
      [|done].
    intros typeAliasKey registrationContext s0 Hs0.
    by rewrite resolve_context_registry, Hframe.
Qed.

(** X5. With lifetime scopes that leave the registry alone, [resolve<T>()]
    changes the registry in one way at most: it appends the registration
    synthesized for [T] to the sequence of the key of [T], which it does
    only for an autowireable [T].  It removes nothing, reorders nothing, and
    the sequences of the other keys are as they were. *)
Theorem resolve_appends_one_registration_at_most T s :
  (∀ sc typeAliasKey r c s0,
     m_registrationScope (getOrCreateComponent sc typeAliasKey r c s0).2
     = m_registrationScope s0) →
  let after_call := m_registrationScope (store (resolve T s)) in
  (after_call = m_registrationScope s
   ∨ (HasAutowireableConstructor T = true
      ∧ after_call
        = <[createKeyForType T :=
              registrations s (createKeyForType T) ++ [synthesized_context T]]>
            (m_registrationScope s)))
  ∧ (∀ typeAliasKey,
       typeAliasKey ≠ createKeyForType T →
       after_call !! typeAliasKey = m_registrationScope s !! typeAliasKey)
  ∧ registrations s (createKeyForType T)
      `prefix_of` default [] (after_call !! createKeyForType T).
Proof.
  intros Hframe. cbv zeta.
  assert (Hkey : ∀ typeAliasKey s0,
            m_registrationScope (store (resolve_key typeAliasKey s0))
            = m_registrationScope s0).
  { intros typeAliasKey s0.
    apply (resolve_key_keeps (λ s1, m_registrationScope s1 = m_registrationScope s0));
      [|done].
    intros k rc s1 Hs1. by rewrite resolve_context_registry, Hframe. }
  assert (Hcases :
            m_registrationScope (store (resolve T s)) = m_registrationScope s
            ∨ (HasAutowireableConstructor T = true
               ∧ m_registrationScope (store (resolve T s))
                 = <[createKeyForType T :=
                       registrations s (createKeyForType T) ++ [synthesized_context T]]>
                     (m_registrationScope s))).
  { unfold resolve. rewrite store_bind.
    destruct (outcome (resolve_key (createKeyForType T) s)) as [[instance|]|e];
      [left; apply Hkey | | left; apply Hkey].
    destruct (HasAutowireableConstructor T) eqn:Hauto.
    - right. split; [done|].
      rewrite resolveIfTypeCanBeRegistered_yes by done. unfold after. cbn [store].
      rewrite Hkey. unfold addRegistration, RegistrationScope_addRegistration.
      cbn [store m_registrationScope set_registrationScope]. by rewrite Hkey.
    - left. rewrite resolveIfTypeCanBeRegistered_no by done. apply Hkey. }
  split; [exact Hcases|].
  split.
  - intros typeAliasKey Hother. destruct Hcases as [-> | [_ ->]]; [done|].
    by rewrite lookup_insert_ne.
  - destruct Hcases as [-> | [_ ->]]; [done|].
    rewrite lookup_insert_eq. simpl. by apply prefix_app_r.
Qed.

Lemma registrations_set_mutex (held : nat) s typeAliasKey :
  registrations (set_mutex held s) typeAliasKey = registrations s typeAliasKey.
Proof. done. Qed.

Lemma registrations_addRegistration T s typeAliasKey :
  registrations s typeAliasKey
    `prefix_of` registrations (store (addRegistration (synthesized T) s)) typeAliasKey.
Proof.
  unfold registrations, addRegistration, RegistrationScope_addRegistration.
  cbn [store m_registrationScope set_registrationScope instanceType synthesized build].
  destruct (decide (typeAliasKey = createKeyForType T)) as [->|Hother].
  - rewrite lookup_insert_eq. simpl. by apply prefix_app_r.
  - by rewrite lookup_insert_ne.
Qed.

(** X6. An engine as its constructor leaves it, then any sequence of
    [resolve<T>()] and [resolveAll<T>()] calls, with lifetime scopes that
    give the mutex back as they found it and only ever append to the
    registry: after the last call the mutex is free, and every sequence of
    the registry starts with what the engine was constructed with, in the
    same order. *)
Theorem requests_keep_mutex_free_and_registrations requests registrationScope scopes :
  (∀ sc typeAliasKey r c s0,
     m_mutex (getOrCreateComponent sc typeAliasKey r c s0).2 = m_mutex s0) →
  (∀ sc typeAliasKey r c s0 typeAliasKey',
     registrations s0 typeAliasKey'
       `prefix_of` registrations (getOrCreateComponent sc typeAliasKey r c s0).2
                     typeAliasKey') →
  let served := serve_all requests (new_ComponentContext registrationScope scopes) in
  m_mutex served = 0
  ∧ ∀ typeAliasKey,
      default [] (registrationScope !! typeAliasKey)
        `prefix_of` registrations served typeAliasKey.
Proof.
  intros Hbalanced Hgrows. cbv zeta.
  apply (serve_all_keeps
           (λ s0, m_mutex s0 = 0
                  ∧ ∀ typeAliasKey,
                      default [] (registrationScope !! typeAliasKey)
                        `prefix_of` registrations s0 typeAliasKey)).
  - intros typeAliasKey registrationContext s0 [Hfree Hprefix].
    rewrite resolve_context_run. cbn [store]. split.
    + simpl. by rewrite Hbalanced.
    + intros typeAliasKey'. rewrite registrations_set_mutex.
      etrans; [apply Hprefix|].
      etrans; [|apply Hgrows]. by rewrite registrations_set_mutex.
  - intros T' s0 [Hfree Hprefix]. split; [done|]. intros typeAliasKey.
    etrans; [apply Hprefix | apply registrations_addRegistration].
  - done.
Qed.

(** *** [resolve<T>()] beside [resolveAll<T>()] *)

Section Stateless.
Hypothesis store_untouched :
  ∀ sc typeAliasKey r c s0, (getOrCreateComponent sc typeAliasKey r c s0).2 = s0.

Lemma stateless_production typeAliasKey registrationContext s :
  store (resolve_context typeAliasKey registrationContext s) = s.
Proof.
  rewrite resolve_context_run. cbn [store].
  rewrite store_untouched. by destruct s.
Qed.

Lemma stateless_in_order typeAliasKey registrationContexts s instances s' :
  resolved_in_order typeAliasKey registrationContexts s instances s' →
  Forall2 (λ registrationContext instance,
             outcome (resolve_context typeAliasKey registrationContext s)
             = Returns instance)
    registrationContexts instances.
Proof.
  induction 1 as [s|rc rest s instance instances s' Hrc Hrest IH]; constructor; [done|].
  by rewrite stateless_production in IH.
Qed.

End Stateless.

(** X7. With lifetime scopes that leave the store as they found it (every
    instance already there, say): when [resolveAll<T>()] returns a sequence
    whose last element is an instance, [resolve<T>()] returns that same
    instance, and leaves the store as it was. *)
Theorem resolve_returns_last_of_resolveAll T s instances instance :
  (∀ sc typeAliasKey r c s0, (getOrCreateComponent sc typeAliasKey r c s0).2 = s0) →
  outcome (resolveAll T s) = Returns instances →
  last instances = Some (Some instance) →
  outcome (resolve T s) = Returns (Some instance) ∧ store (resolve T s) = s.
Proof.
  intros Hpure Hall Hlast.
  assert (Hordered : ∃ new, instances = [] ++ new
                       ∧ resolved_in_order (createKeyForType T)
                           (registrations s (createKeyForType T)) s new
                           (store (resolveAll_loop (createKeyForType T)
                                     (registrations s (createKeyForType T)) [] s))).
  { apply resolveAll_loop_in_order. split; [|done].
    revert Hall. rewrite resolveAll_run. unfold after. by cbn [outcome]. }
  destruct Hordered as (new & -> & Hordered). simpl in Hlast.
  apply (stateless_in_order Hpure) in Hordered.
  apply last_Some in Hlast as [before ->].
  apply Forall2_app_inv_r in Hordered as (earlier & final & _ & Hfinal & Hregistered).
  apply Forall2_cons_inv_r in Hfinal as (back & nothing & Hback & Hnothing & ->).
  apply Forall2_nil_inv_r in Hnothing as ->.
  assert (Hfound : m_registrationScope s !! createKeyForType T = Some (earlier ++ [back])).
  { revert Hregistered. unfold registrations.
    destruct (m_registrationScope s !! createKeyForType T); simpl; [by intros -> |].
    by destruct earlier. }
  rewrite (resolve_registered_instance _ _ _ _ _ Hfound Hback).
  unfold after. cbn [outcome store]. split; [done|].
  by apply stateless_production.
Qed.

(** *** A type whose every production declines *)


(** *** Without and with autowiring *)

(** X10. For a [T] without autowireable constructor, [resolve<T>()] is its
    lookup step and nothing more: same result (instance, null or
    exception), same store, same calls; there is no second lookup and no
    insertion. *)
Theorem resolve_without_autowiring_is_the_lookup_step T s :
  HasAutowireableConstructor T = false →
  resolve T s = resolve_key (createKeyForType T) s.
Proof.
  intros Hno. unfold resolve.
  destruct (outcome (resolve_key (createKeyForType T) s)) as [[instance|]|e] eqn:Hkey.
  - rewrite (bind_returns _ _ s _ Hkey). unfold after, ret. cbn [outcome store calls].
    rewrite app_nil_r, <- Hkey. by destruct (resolve_key _ s).
  - rewrite (bind_returns _ _ s _ Hkey), resolveIfTypeCanBeRegistered_no by done.
    unfold after. cbn [outcome store calls].
    rewrite app_nil_r. unfold nullptr. rewrite <- Hkey. by destruct (resolve_key _ s).
  - rewrite (bind_throws _ _ s _ Hkey), <- Hkey. by destruct (resolve_key _ s).
Qed.

(** X11. Nothing is rolled back when the production of a freshly
    synthesized registration throws: with nothing registered for the key of
    an autowireable [T], [resolve<T>()] throws what the production threw,
    and the registry it leaves is the one the lifetime scope left, in which
    [T] is registered (once, if the lifetime scope left the registry
    alone). *)
Theorem throwing_constructor_leaves_the_registration T s e :
  unregistered s (createKeyForType T) →
  HasAutowireableConstructor T = true →
  let inserted := store (addRegistration (synthesized T) s) in
  let thrown := produced (createKeyForType T) (synthesized_context T) inserted in
  thrown.1 = Throws e →
  outcome (resolve T s) = Throws e
  ∧ m_registrationScope (store (resolve T s)) = m_registrationScope thrown.2
  ∧ (m_registrationScope thrown.2 = m_registrationScope inserted →
     m_registrationScope (store (resolve T s)) !! createKeyForType T
     = Some [synthesized_context T]).
Proof.
  intros Hun Hyes. cbv zeta. intros Hthrown.
  rewrite (resolve_unregistered_autowireable _ _ Hun Hyes).
  unfold after. cbn [outcome store]. rewrite resolve_context_produced.
  cbn [outcome store]. split; [exact Hthrown|]. split; [done|].
  intros Hsame. cbn [m_registrationScope set_mutex]. rewrite Hsame.
  by apply addRegistration_unregistered.
Qed.

End Further.

(** ** The properties in the small application *)

Import Garage.

(** C1 at ["Logger"], registered twice: the second registration is the one
    resolved. *)
Lemma resolve_selects_last_registered_witness :
  m_registrationScope two_loggers !! "Logger"
  = Some ([registered "Logger" 1] ++ [registered "Logger" 2])
  ∧ resolve "Logger" two_loggers
    = after [call_tryGetRegistrations "Logger"]
        (resolve_context "Logger" (registered "Logger" 2) two_loggers)
  ∧ outcome (resolve "Logger" two_loggers) = Returns (Some 101).
Proof.
  assert (Hfound : m_registrationScope two_loggers !! "Logger"
                   = Some ([registered "Logger" 1] ++ [registered "Logger" 2]))
    by (vm_compute; reflexivity).
  split; [exact Hfound|].
  destruct (@resolve_selects_last_registered application collaborators "Logger" two_loggers
              [registered "Logger" 1] (registered "Logger" 2) Hfound)
    as (_ & Hinstance & _).
  split; [apply (Hinstance 101); vm_compute; reflexivity | vm_compute; reflexivity].
Defined.

(** C2 at ["Logger"], registered twice: two instances, in registration
    order. *)
Lemma resolveAll_resolves_each_in_order_witness :
  registrations two_loggers "Logger" = [registered "Logger" 1; registered "Logger" 2]
  ∧ outcome (resolveAll "Logger" two_loggers) = Returns [Some 100; Some 101]
  ∧ resolved_in_order "Logger" [registered "Logger" 1; registered "Logger" 2]
      two_loggers [Some 100; Some 101] (store (resolveAll "Logger" two_loggers)).
Proof.
  split; [vm_compute; reflexivity|].
  assert (Hall : outcome (resolveAll "Logger" two_loggers)
                 = Returns [Some 100; Some 101])
    by (vm_compute; reflexivity).
  split; [exact Hall|].
  destruct (@resolveAll_resolves_each_in_order application collaborators "Logger"
              two_loggers) as (Hspec & _).
  apply Hspec. split; [exact Hall | reflexivity].
Defined.

(** C3 as written fails at ["Car"], registered with a factory that declines:
    the production returns null, and [resolve<T>()] inserts a second
    registration and returns the object its constructor made. *)
Lemma resolve_falls_back_after_null_production :
  m_registrationScope declined_car !! "Car" = Some ([] ++ [registered "Car" 0])
  ∧ outcome (resolve_context "Car" (registered "Car" 0) declined_car) = Returns nullptr
  ∧ outcome (resolve "Car" declined_car) = Returns (Some 0)
  ∧ calls (resolve "Car" declined_car) !! 6 = Some (call_addRegistration (synthesized "Car"))
  ∧ m_registrationScope (store (resolve "Car" declined_car)) !! "Car"
    = Some [registered "Car" 0; synthesized_context "Car"]
  ∧ ¬ fallback_only_when_unregistered.
Proof.
  repeat (split; [vm_compute; reflexivity|]).
  intros Hclaim.
  destruct (Hclaim application collaborators "Car" declined_car []
              (registered "Car" 0)) as [Hsame _]; [vm_compute; reflexivity|].
  vm_compute in Hsame. discriminate Hsame.
Qed.

(** C3 (amended) at the same input. *)
Lemma resolve_null_production_falls_back_witness :
  m_registrationScope declined_car !! "Car" = Some ([] ++ [registered "Car" 0])
  ∧ resolve "Car" declined_car
    = after ((call_tryGetRegistrations "Car"
                :: production_calls "Car" (registered "Car" 0))
             ++ [call_addRegistration (synthesized "Car");
                 call_tryGetRegistrations "Car"])
        (resolve_context "Car" (synthesized_context "Car")
           (store (addRegistration (synthesized "Car")
                     (store (resolve_context "Car" (registered "Car" 0)
                               declined_car))))).
Proof.
  assert (Hfound : m_registrationScope declined_car !! "Car"
                   = Some ([] ++ [registered "Car" 0]))
    by (vm_compute; reflexivity).
  split; [exact Hfound|].
  destruct (@resolve_null_production_falls_back application collaborators "Car" declined_car []
              (registered "Car" 0) Hfound) as (_ & _ & _ & Hyes).
  apply Hyes; vm_compute; reflexivity.
Defined.

(** C4 at ["Logger"], which nobody registered and no constructor of which is
    autowireable. *)
Lemma resolve_unregistered_returns_null_witness :
  unregistered empty "Logger"
  ∧ HasAutowireableConstructor "Logger" = false
  ∧ resolve "Logger" empty
    = {| outcome := Returns nullptr; store := empty;
         calls := [call_tryGetRegistrations "Logger"] |}.
Proof.
  assert (Hun : unregistered empty "Logger") by (left; vm_compute; reflexivity).
  assert (Hno : HasAutowireableConstructor "Logger" = false)
    by (vm_compute; reflexivity).
  split; [exact Hun|]. split; [exact Hno|].
  apply (@resolve_unregistered_returns_null application collaborators "Logger" empty Hun Hno).
Defined.

(** C5 at ["Car"] with an empty registry. *)
Lemma resolve_registers_then_retries_once_witness :
  unregistered empty "Car"
  ∧ HasAutowireableConstructor "Car" = true
  ∧ m_registrationScope (store (addRegistration (synthesized "Car") empty)) !! "Car"
    = Some [synthesized_context "Car"]
  ∧ calls (resolve "Car" empty)
    = [call_tryGetRegistrations "Car"; call_addRegistration (synthesized "Car");
       call_tryGetRegistrations "Car"]
      ++ production_calls "Car" (synthesized_context "Car").
Proof.
  assert (Hun : unregistered empty "Car") by (left; vm_compute; reflexivity).
  assert (Hyes : HasAutowireableConstructor "Car" = true)
    by (vm_compute; reflexivity).
  split; [exact Hun|]. split; [exact Hyes|].
  destruct (@resolve_registers_then_retries_once application collaborators "Car" empty Hun Hyes)
    as (Hone & _ & Hcalls & _).
  split; [exact Hone | exact Hcalls].
Defined.


(** C7 at ["Car"] with an empty registry: the constructor of ["Car"] is
    autowireable, and [resolveAll<T>()] still returns nothing and registers
    nothing. *)
Lemma resolveAll_unregistered_is_empty_witness :
  unregistered empty "Car"
  ∧ HasAutowireableConstructor "Car" = true
  ∧ resolveAll "Car" empty
    = {| outcome := Returns []; store := empty;
         calls := [call_tryGetRegistrations "Car"] |}.
Proof.
  assert (Hun : unregistered empty "Car") by (left; vm_compute; reflexivity).
  split; [exact Hun|]. split; [vm_compute; reflexivity|].
  apply (@resolveAll_unregistered_is_empty application collaborators "Car" empty Hun).
Defined.

(** C10 at ["Wheel"], whose entry in the registry is an empty sequence. *)
Lemma resolve_empty_lookup_like_missing_witness :
  m_registrationScope no_wheel !! "Wheel" = Some []
  ∧ resolve_key "Wheel" no_wheel
    = {| outcome := Returns nullptr; store := no_wheel;
         calls := [call_tryGetRegistrations "Wheel"] |}
  ∧ resolve "Wheel" no_wheel
    = after [call_tryGetRegistrations "Wheel"]
        (resolveIfTypeCanBeRegistered "Wheel" no_wheel)
  ∧ outcome (resolve "Wheel" no_wheel) = outcome (resolve "Wheel" (forget "Wheel" no_wheel)).
Proof.
  assert (Hempty : m_registrationScope no_wheel !! "Wheel" = Some [])
    by (vm_compute; reflexivity).
  split; [exact Hempty|].
  destruct (@resolve_empty_lookup_like_missing application collaborators "Wheel"
              no_wheel Hempty) as (Hkey & Hfall & _ & _ & Hout & _).
  split; [exact Hkey|]. split; [exact Hfall | exact Hout].
Defined.

(** C8 as written fails at ["Car"] with an empty registry, the mutex free:
    both lookups and the insertion of the synthesized registration are made
    before the mutex is taken. *)
Lemma insertion_is_made_without_the_mutex :
  m_mutex empty = 0
  ∧ holds 0 (calls (resolve "Car" empty))
    = [ (call_tryGetRegistrations "Car", 0);
        (call_addRegistration (synthesized "Car"), 0);
        (call_tryGetRegistrations "Car", 0);
        (construct_ResolutionContext resolutionContext_of_engine, 0);
        (call_lock, 0);
        (call_getOrCreateComponent 0 "Car" (synthesized "Car")
           resolutionContext_of_engine, 1);
        (call_unlock, 1);
        (destroy_ResolutionContext, 0) ]
  ∧ ¬ mutex_guards_selection_and_insertion.
Proof.
  split; [reflexivity|]. split; [vm_compute; reflexivity|].
  intros Hclaim.
  specialize (Hclaim application collaborators "Car" empty
                (call_addRegistration (synthesized "Car")) 0).
  assert (Hin : (call_addRegistration (synthesized "Car"), 0)
                ∈ holds (m_mutex empty) (calls (resolve "Car" empty))).
  { apply (list_elem_of_lookup_2 _ 1). vm_compute. reflexivity. }
  apply Hclaim in Hin. simpl in Hin. lia.
Qed.


(** ** The further properties in the small application *)

Import Workshop.

(** X1 at ["Car"], registered with the factory that runs into itself:
    [resolve<T>()] throws, and the mutex is free again. *)
Lemma mutex_released_on_every_exit_witness :
  outcome (@resolve application faulty "Car" declined_car) = Throws "circular dependency"
  ∧ m_mutex (store (@resolve application faulty "Car" declined_car)) = 0
  ∧ m_mutex (store (@resolveAll application faulty "Car" declined_car)) = 0.
Proof.
  split; [vm_compute; reflexivity|].
  destruct (@mutex_released_on_every_exit application faulty "Car" declined_car)
    as (_ & Hresolve & HresolveAll).
  { intros sc typeAliasKey r c s0. simpl.
    destruct (instanceFactory r) as [|[|]]; reflexivity. }
  split; [exact Hresolve | exact HresolveAll].
Defined.

(** X3 at ["Logger"], registered three times: the first production returns,
    the second throws, the third is not made. *)
Lemma resolveAll_stops_at_first_throw_witness :
  registrations broken_loggers "Logger"
  = [registered "Logger" 1] ++ registered "Logger" 0 :: [registered "Logger" 2]
  ∧ @resolveAll application faulty "Logger" broken_loggers
    = {| outcome := Throws "circular dependency";
         store := broken_loggers;
         calls := call_tryGetRegistrations "Logger"
                    :: production_calls "Logger" (registered "Logger" 1)
                    ++ production_calls "Logger" (registered "Logger" 0) |}.
Proof.
  assert (Hregistered : registrations broken_loggers "Logger"
            = [registered "Logger" 1] ++ registered "Logger" 0 :: [registered "Logger" 2])
    by (vm_compute; reflexivity).
  split; [exact Hregistered|].
  assert (Hfirst : @resolved_in_order application faulty "Logger"
                     [registered "Logger" 1] broken_loggers [Some 100] broken_loggers).
  { apply (@resolved_next application faulty "Logger" (registered "Logger" 1) []
             broken_loggers (Some 100) [] broken_loggers).
    - vm_compute. reflexivity.
    - apply (@resolved_none application faulty). }
  rewrite (@resolveAll_stops_at_first_throw application faulty "Logger" broken_loggers
             [registered "Logger" 1] (registered "Logger" 0) [registered "Logger" 2]
             [Some 100] broken_loggers "circular dependency" Hregistered Hfirst);
    [reflexivity | vm_compute; reflexivity].
Defined.

(** X5 at ["Car"], registered with a factory that declines: one
    registration is appended, under ["Car"]. *)
Lemma resolve_appends_one_registration_at_most_witness :
  m_registrationScope (store (resolve "Car" declined_car))
  = <["Car" := [registered "Car" 0; synthesized_context "Car"]]>
      (m_registrationScope declined_car)
  ∧ m_registrationScope (store (resolve "Car" declined_car)) !! "Logger"
    = m_registrationScope declined_car !! "Logger".
Proof.
  destruct (@resolve_appends_one_registration_at_most application collaborators
              "Car" declined_car) as (_ & Hothers & _).
  { intros sc typeAliasKey r c s0. simpl.
    destruct (instanceFactory r) as [|[|]]; reflexivity. }
  split; [vm_compute; reflexivity|].
  apply Hothers. discriminate.
Defined.

(** X6: an engine constructed with the two loggers, then three calls. *)
Lemma requests_keep_mutex_free_and_registrations_witness :
  let served :=
    serve_all [request_resolve "Car"; request_resolveAll "Logger"; request_resolve "Car"]
      (new_ComponentContext
         {[ "Logger" := [registered "Logger" 1; registered "Logger" 2] ]} 0) in
  m_mutex served = 0
  ∧ [registered "Logger" 1; registered "Logger" 2] `prefix_of` registrations served "Logger"
  ∧ registrations served "Car" = [synthesized_context "Car"].
Proof.
  cbv zeta.
  destruct (@requests_keep_mutex_free_and_registrations application collaborators
              [@request_resolve application "Car";
               @request_resolveAll application "Logger";
               @request_resolve application "Car"]
              {[ "Logger" := [registered "Logger" 1; registered "Logger" 2] ]} 0)
    as (Hfree & Hprefix).
  { intros sc typeAliasKey r c s0. simpl.
    destruct (instanceFactory r) as [|[|]]; reflexivity. }
  { intros sc typeAliasKey r c s0 typeAliasKey'. simpl.
    destruct (instanceFactory r) as [|[|]]; reflexivity. }
  split; [exact Hfree|].
  split; [apply (Hprefix "Logger") | vm_compute; reflexivity].
Defined.

(** X7 at ["Logger"], registered twice, every instance there already. *)
Lemma resolve_returns_last_of_resolveAll_witness :
  outcome (@resolveAll application cached "Logger" two_loggers)
  = Returns [Some 100; Some 101]
  ∧ outcome (@resolve application cached "Logger" two_loggers) = Returns (Some 101)
  ∧ store (@resolve application cached "Logger" two_loggers) = two_loggers.
Proof.
  assert (Hall : outcome (@resolveAll application cached "Logger" two_loggers)
                 = Returns [Some 100; Some 101]) by (vm_compute; reflexivity).
  split; [exact Hall|].
  apply (@resolve_returns_last_of_resolveAll application cached "Logger" two_loggers
           [Some 100; Some 101] 101); [| exact Hall | reflexivity].
  intros sc typeAliasKey r c s0. simpl.
  destruct (instanceFactory r) as [|[|]]; reflexivity.
Defined.


(** X10 at ["Logger"], registered twice. *)
Lemma resolve_without_autowiring_is_the_lookup_step_witness :
  HasAutowireableConstructor "Logger" = false
  ∧ resolve "Logger" two_loggers = resolve_key "Logger" two_loggers.
Proof.
  assert (Hno : HasAutowireableConstructor "Logger" = false) by (vm_compute; reflexivity).
  split; [exact Hno|].
  apply (@resolve_without_autowiring_is_the_lookup_step application collaborators
           "Logger" two_loggers Hno).
Defined.

(** X11 at ["Car"] with an empty registry and constructors that throw. *)
Lemma throwing_constructor_leaves_the_registration_witness :
  outcome (@resolve application failing_constructors "Car" empty)
  = Throws "constructor failed"
  ∧ m_registrationScope (store (@resolve application failing_constructors "Car" empty))
      !! "Car"
    = Some [@synthesized_context application failing_constructors "Car"].
Proof.
  destruct (@throwing_constructor_leaves_the_registration application
              failing_constructors "Car" empty "constructor failed")
    as (Hthrows & _ & Hkept).
  - left. vm_compute. reflexivity.
  - vm_compute. reflexivity.
  - vm_compute. reflexivity.
  - split; [exact Hthrows|]. apply Hkept. vm_compute. reflexivity.
Defined.

(** X4 at ["Car"], registered with a factory that declines: [resolveAll<T>()]
    returns the null it was given and registers nothing, autowireable as
    ["Car"] is. *)
Lemma resolveAll_never_registers_witness :
  outcome (resolveAll "Car" declined_car) = Returns [nullptr]
  ∧ m_registrationScope (store (resolveAll "Car" declined_car))
    = m_registrationScope declined_car.
Proof.
  split; [vm_compute; reflexivity|].
  destruct (@resolveAll_never_registers application collaborators "Car" declined_car)
    as (_ & Hsame).
  apply Hsame. intros sc typeAliasKey r c s0. simpl.
  destruct (instanceFactory r) as [|[|]]; reflexivity.
Defined.


